(** * rag/main.py: a retrieve-then-generate pipeline

    A shallow embedding of the script [rag/rag/main.py] and the properties
    its specification states about it.

    The script is a straight line of calls into third-party components
    (document loaders, a text splitter, an embedding client, an in-memory
    vector store, a prompt template, a generative model and a two-node
    state graph).  The script's own statements are embedded as they are
    written; the model servers and the file system are inputs, gathered in
    the record [Services]; the library operations whose contract the
    specification spells out are modelled from that contract and marked
    as such. *)

From Stdlib Require Import String Ascii List Arith Lia DecimalString.
From stdpp Require Import base option list gmap strings sorting.

Open Scope string_scope.
Open Scope list_scope.
Open Scope nat_scope.

(** ** Python built-ins used by the script *)

Module Py.

(** Exceptions the script's own expressions can raise. *)
Inductive exn :=
| IndexError
| KeyError (key : string)
| TypeError
| GraphRecursionError.

(** The line feed character and the separator ["\n\n"] of [generate]. *)
Definition LF : ascii := "010"%char.
Definition nl : string := String LF EmptyString.
Definition blank_line : string := nl +:+ nl.

(** [sep.join(items)] *)
Fixpoint join (sep : string) (items : list string) : string :=
  match items with
  | [] => ""
  | [x] => x
  | x :: (_ :: _) as rest => x +:+ sep +:+ join sep rest
  end.

(** [len(s)] on a string: the number of its characters. *)
Definition len (s : string) : nat := String.length s.

(** [str(n)] of a non-negative integer, as an f-string formats it. *)
Definition str (n : nat) : string := NilZero.string_of_uint (Nat.to_uint n).

(** [l[0]]: the first element, or [IndexError] on the empty list. *)
Definition first {A} (l : list A) : exn + A :=
  match l with
  | [] => inl IndexError
  | x :: _ => inr x
  end.

(** [s[:n]] and [s[n:]] *)
Fixpoint prefix (n : nat) (s : string) : string :=
  match n, s with
  | S n', String c s' => String c (prefix n' s')
  | _, _ => ""
  end.

Fixpoint suffix (n : nat) (s : string) : string :=
  match n, s with
  | S n', String _ s' => suffix n' s'
  | _, _ => s
  end.

(** [s[a:a+n]] *)
Definition slice (a n : nat) (s : string) : string := prefix n (suffix a s).

(** [s.endswith(p)] *)
Definition endswith (p s : string) : bool :=
  if (String.length p <=? String.length s)%nat
  then String.eqb (suffix (String.length s - String.length p) s) p
  else false.

(** [s.split(sep)] for a one-character separator. *)
Fixpoint split_on (sep : ascii) (s : string) : list string :=
  match s with
  | EmptyString => [""]
  | String c s' =>
      if Ascii.eqb c sep then "" :: split_on sep s'
      else match split_on sep s' with
           | [] => [String c ""]
           | w :: ws => String c w :: ws
           end
  end.

End Py.

(** ** Documents *)

(** A metadata value: a string (the source tag) or an integer (the start
    offset a splitter records). *)
Inductive meta_value :=
| MStr (s : string)
| MInt (n : nat).

(** [langchain_core.documents.Document]: text plus a metadata mapping. *)
Record Document := mkDocument {
  page_content : string;
  metadata : gmap string meta_value
}.

(** ** Source constants *)

Definition generativeModelName : string := "BlackHillsInfoSec/llama-3.1-8b-abliterated".
Definition embeddingsModelName : string := "mxbai-embed-large".
Definition web_paths : list string :=
  ["https://www.blackhillsinfosec.com/using-pyrit-to-assess-large-language-models-llms/"].
Definition directory_path : string := "./".
Definition file_glob : string := "**/*.txt".
Definition chunk_size : nat := 1000.
Definition chunk_overlap : nat := 200.
Definition add_start_index : bool := true.
Definition prompt_name : string := "rlm/rag-prompt".
Definition the_question : string := "What are some username passwords?".

(** ** Pipeline state *)

(** A value held under a key of the state dictionary. *)
Inductive value :=
| VStr (s : string)
| VDocs (docs : list Document).

(** [class State(TypedDict)]: a dictionary with the keys ["question"],
    ["context"] and ["answer"], any of which may be absent. *)
Abbreviation State := (gmap string value).

(** ** Effects

    The script talks to the outside world (loaders, model servers, the
    prompt hub, standard output) and mutates one module-level object, the
    vector store.  A computation is a function from the world to an
    outcome: a value or a raised exception, each with the world left
    behind, so that what happened before a failure stays observable. *)

Section Pipeline.

Context {Vec Dist Msg : Type}.

(** One entry of the in-memory vector store: an indexed chunk and its vector. *)
Record Entry := mkEntry {
  entry_doc : Document;
  entry_vec : Vec
}.

(** The calls the script makes into its collaborators, one event per call. *)
Inductive event :=
| WebLoad (urls : list string)
| DirectoryLoad (dir glob : string)
| Print (line : string)
| SplitDocuments (docs : list Document)
| AddDocuments (docs : list Document)
| HubPull (name : string)
| SimilaritySearch (query : string)
| PromptInvoke (question context : string)
| LlmInvoke (model : string) (messages : Msg).

Record World := mkWorld {
  store : list Entry;        (* vector_store, in insertion order *)
  trace : list event         (* calls made so far, oldest first *)
}.

Inductive Outcome (A : Type) :=
| Returned (a : A) (w : World)
| Raised (e : Py.exn) (w : World).
Arguments Returned {A} a w.
Arguments Raised {A} e w.

Definition M (A : Type) : Type := World -> Outcome A.

Definition ret {A} (a : A) : M A := fun w => Returned a w.

Definition bind {A B} (m : M A) (f : A -> M B) : M B :=
  fun w => match m w with
           | Returned a w' => f a w'
           | Raised e w' => Raised e w'
           end.

Definition raise {A} (e : Py.exn) : M A := fun w => Raised e w.

Definition lift {A} (r : Py.exn + A) : M A :=
  match r with
  | inl e => raise e
  | inr a => ret a
  end.

Definition emit (ev : event) : M unit :=
  fun w => Returned tt (mkWorld (store w) (trace w ++ [ev])).

Definition get_store : M (list Entry) := fun w => Returned (store w) w.

Definition put_store (s : list Entry) : M unit :=
  fun w => Returned tt (mkWorld s (trace w)).

Notation "x <- m ;; k" := (bind m (fun x => k))
  (at level 100, m at next level, right associativity).
Notation "m ;;; k" := (bind m (fun _ => k))
  (at level 100, right associativity).

(** Lines written to standard output, in order. *)
Fixpoint stdout (t : list event) : list string :=
  match t with
  | [] => []
  | Print line :: t' => line :: stdout t'
  | _ :: t' => stdout t'
  end.

(** [print(line)] *)
Definition print (line : string) : M unit := emit (Print line).

(** ** The collaborators' inputs *)

(** What the environment answers.  The web page, the files below the
    working directory, the two model servers and the prompt hub are not
    part of the script; a run is determined by them. *)
Record Services := mkServices {
  (* WebBaseLoader(web_paths).load(): the documents fetched *)
  web_fetch : list string -> list Document;
  (* the regular files below a directory: path relative to it, and text *)
  files_below : string -> list (string * string);
  (* OllamaEmbeddings(model).embed *)
  embed : string -> string -> Vec;
  (* the store's distance between two vectors, and its order *)
  distance : Vec -> Vec -> Dist;
  dist_le : Dist -> Dist -> bool;
  (* similarity_search's default k *)
  default_k : nat;
  (* the splitter's preferred end of the next chunk within a window *)
  snap : string -> nat;
  (* hub.pull(name).invoke({"question": q, "context": c}) *)
  render : string -> string -> string -> Msg;
  (* OllamaLLM(model).invoke(messages) *)
  complete : string -> Msg -> string
}.

Variable sv : Services.

(** ** Document loaders *)

(** [web_loader.load()] *)
Definition web_loader_load : M (list Document) :=
  emit (WebLoad web_paths) ;;;
  ret (web_fetch sv web_paths).

(** Modelled from the spec: the matching of a glob pattern is library code
    (Python's [pathlib], which [DirectoryLoader] calls); section 6 only
    names the pattern.  Patterns are read as [pathlib] reads the two forms
    the script and the specification use.  One path segment against one
    pattern segment: [*] stands for any run of characters, every other
    character for itself. *)
Fixpoint wildcard (p : string) (s : string) : bool :=
  match p with
  | EmptyString => match s with EmptyString => true | _ => false end
  | String c p' =>
      if Ascii.eqb c "*"%char then
        (fix star (s : string) : bool :=
           wildcard p' s ||
           match s with
           | EmptyString => false
           | String _ s' => star s'
           end) s
      else
        match s with
        | EmptyString => false
        | String d s' => Ascii.eqb c d && wildcard p' s'
        end
  end.

(** A path against a pattern, segment by segment: the segment [**] stands
    for any number of directories, none included. *)
Fixpoint glob_segments (ps : list string) (path : list string) : bool :=
  match ps with
  | [] => match path with [] => true | _ => false end
  | p :: ps' =>
      if String.eqb p "**" then
        (fix descend (path : list string) : bool :=
           glob_segments ps' path ||
           match path with
           | [] => false
           | _ :: path' => descend path'
           end) path
      else
        match path with
        | [] => false
        | seg :: path' => wildcard p seg && glob_segments ps' path'
        end
  end.

Definition glob_match (pattern path : string) : bool :=
  glob_segments (Py.split_on "/"%char pattern) (Py.split_on "/"%char path).

(** A file as a document: its full text, tagged with its path. *)
Definition file_document (f : string * string) : Document :=
  mkDocument (snd f) {["source" := MStr (fst f)]}.

(** Modelled from the spec: [DirectoryLoader(dir, glob, TextLoader).load()]
    is library code; section 4.1 has it read every matching file's full
    text and wrap each as one document tagged with its file path.  The
    pattern is the script's; patterns are read as Python's [pathlib]
    reads them. *)
Definition directory_load (dir glob : string) : list Document :=
  map file_document
      (filter (fun f => glob_match glob (fst f) = true) (files_below sv dir)).

(** [file_loader.load()] *)
Definition file_loader_load : M (list Document) :=
  emit (DirectoryLoad directory_path file_glob) ;;;
  ret (directory_load directory_path file_glob).

(** ** Text splitter *)

(** Modelled from the spec: the splitter's choice of where a chunk ends is
    library code; section 4.2 has it prefer a boundary (paragraph,
    sentence, word) and fall back to a hard cut at [L].  For a text [s]
    longer than [L]: the policy's preferred boundary within the first [L]
    characters when it leaves more than the overlap, [L] otherwise. *)
Definition chunk_len (L O : nat) (s : string) : nat :=
  let n := snap sv (Py.prefix L s) in
  if ((O <? n) && (n <=? L))%nat then n else L.

(** Modelled from the spec: [RecursiveCharacterTextSplitter.split_text] is
    library code; section 4.2 bounds each chunk by [L], lets it end at a
    preferred boundary or at a hard cut, and starts each later chunk [O]
    characters before the end of the previous one.  [off] is the offset of
    [s] in the document. *)
Fixpoint split_from (fuel L O off : nat) (s : string) : list (nat * string) :=
  match fuel with
  | 0 => []
  | S fuel' =>
      if (String.length s =? 0)%nat then []
      else if (String.length s <=? L)%nat then [(off, s)]
      else
        let n := chunk_len L O s in
        (off, Py.prefix n s) ::
        split_from fuel' L O (off + (n - O)) (Py.suffix (n - O) s)
  end.

Definition split_text (L O : nat) (s : string) : list (nat * string) :=
  split_from (String.length s) L O 0 s.

(** Modelled from the spec: the making of chunk documents is library code;
    section 4.2 has each chunk record its starting character offset in the
    parent's content as metadata.  A chunk keeps the parent's metadata,
    and gets the start offset when [add_start_index] is set. *)
Definition split_document (L O : nat) (start_index : bool) (d : Document)
  : list Document :=
  map (fun c =>
         mkDocument (snd c)
           (if start_index
            then <["start_index" := MInt (fst c)]> (metadata d)
            else metadata d))
      (split_text L O (page_content d)).

(** Modelled from the spec: [split_documents] is library code; section 4.2
    has it produce the chunks of each document of the sequence, in one
    output sequence.  Here a loop that appends each document's chunks. *)
Definition split_documents (L O : nat) (start_index : bool)
  (docs : list Document) : list Document :=
  fold_left (fun acc d => acc ++ split_document L O start_index d) docs [].

(** [text_splitter.split_documents(docs)] for the splitter the script builds. *)
Definition text_splitter_split_documents (docs : list Document)
  : M (list Document) :=
  emit (SplitDocuments docs) ;;;
  ret (split_documents chunk_size chunk_overlap add_start_index docs).

(** ** Vector store *)

(** [embeddings], the client built for [embeddingsModelName]. *)
Definition embeddings (text : string) : Vec := embed sv embeddingsModelName text.

(** Modelled from the spec: [vector_store.add_documents(documents=docs)]
    is library code; section 4.4 has it insert each chunk with its vector,
    without de-duplication, insertion order being the only order kept. *)
Definition add_documents (docs : list Document) : M unit :=
  emit (AddDocuments docs) ;;;
  s <- get_store ;;
  put_store (s ++ map (fun d => mkEntry d (embeddings (page_content d))) docs).

(** Insertion that keeps [x] ahead of the elements it does not exceed. *)
Fixpoint insert_by {A} (le : A -> A -> bool) (x : A) (l : list A) : list A :=
  match l with
  | [] => [x]
  | y :: l' => if le x y then x :: y :: l' else y :: insert_by le x l'
  end.

Definition stable_sort {A} (le : A -> A -> bool) (l : list A) : list A :=
  fold_right (insert_by le) [] l.

(** Entry [a] is at most as far from the query vector as entry [b]. *)
Definition closer (qv : Vec) (a b : Entry) : bool :=
  dist_le sv (distance sv qv (entry_vec a)) (distance sv qv (entry_vec b)).

(** Modelled from the spec: the store's [search(query_vector, k)] is
    library code; section 4.4 has it return the [k] chunks nearest to the
    query vector, nearest first, ties in insertion order. *)
Definition search (entries : list Entry) (qv : Vec) (k : nat) : list Document :=
  map entry_doc (take k (stable_sort (closer qv) entries)).

(** [vector_store.similarity_search(query)]: embeds the query and searches
    with the library's default [k]. *)
Definition similarity_search (query : string) : M (list Document) :=
  emit (SimilaritySearch query) ;;;
  s <- get_store ;;
  ret (search s (embeddings query) (default_k sv)).

(** ** The two stages *)

(** [state[key]] *)
Definition getitem (st : State) (key : string) : M value :=
  match st !! key with
  | Some v => ret v
  | None => raise (Py.KeyError key)
  end.

(** Use of a state value as text, as a list of documents; a value of the
    other kind is a type error, which the [TypedDict] annotation rules out. *)
Definition as_str (v : value) : M string :=
  match v with
  | VStr s => ret s
  | VDocs _ => raise Py.TypeError
  end.

Definition as_docs (v : value) : M (list Document) :=
  match v with
  | VDocs docs => ret docs
  | VStr _ => raise Py.TypeError
  end.

(** [prompt.invoke({"question": q, "context": c})] on the pulled prompt. *)
Definition prompt_invoke (q c : string) : M Msg :=
  emit (PromptInvoke q c) ;;;
  ret (render sv prompt_name q c).

(** [llm.invoke(messages)] *)
Definition llm_invoke (messages : Msg) : M string :=
  emit (LlmInvoke generativeModelName messages) ;;;
  ret (complete sv generativeModelName messages).

(** [def retrieve(state)] *)
Definition retrieve (st : State) : M State :=
  q <- getitem st "question" ;;
  q <- as_str q ;;
  retrieved_docs <- similarity_search q ;;
  ret {["context" := VDocs retrieved_docs]}.

(** [def generate(state)] *)
Definition generate (st : State) : M State :=
  ctx <- getitem st "context" ;;
  docs <- as_docs ctx ;;
  let docs_content := Py.join Py.blank_line (map page_content docs) in
  q <- getitem st "question" ;;
  q <- as_str q ;;
  messages <- prompt_invoke q docs_content ;;
  response <- llm_invoke messages ;;
  ret {["answer" := VStr response]}.

(** ** The state graph *)

Record StateGraph := mkGraph {
  nodes : list (string * (State -> M State));
  edges : list (string * string)
}.

Definition START : string := "__start__".

Definition empty_graph : StateGraph := mkGraph [] [].

(** Edges from each name to the next. *)
Fixpoint chain (names : list string) : list (string * string) :=
  match names with
  | a :: (b :: _) as rest => (a, b) :: chain rest
  | _ => []
  end.

(** [g.add_sequence(steps)]: the steps as nodes, under their function
    names, and an edge from each to the next. *)
Definition add_sequence (steps : list (string * (State -> M State)))
  (g : StateGraph) : StateGraph :=
  mkGraph (nodes g ++ steps) (edges g ++ chain (map fst steps)).

(** [g.add_edge(a, b)] *)
Definition add_edge (a b : string) (g : StateGraph) : StateGraph :=
  mkGraph (nodes g) (edges g ++ [(a, b)]).

(** [graph_builder], after both statements that build it. *)
Definition graph_builder : StateGraph :=
  add_edge START "retrieve"
    (add_sequence [("retrieve", retrieve); ("generate", generate)] empty_graph).

Fixpoint successors (es : list (string * string)) (name : string) : list string :=
  match es with
  | [] => []
  | e :: es' =>
      if String.eqb (fst e) name then snd e :: successors es' name
      else successors es' name
  end.

Fixpoint find_node (ns : list (string * (State -> M State))) (name : string)
  : option (State -> M State) :=
  match ns with
  | [] => None
  | n :: ns' => if String.eqb (fst n) name then Some (snd n) else find_node ns' name
  end.

(** A node's update of the state; a name without a node updates nothing. *)
Definition run_node (g : StateGraph) (st : State) (name : string) : M State :=
  match find_node (nodes g) name with
  | Some f => f st
  | None => ret ∅
  end.

Fixpoint run_all (g : StateGraph) (st : State) (names : list string)
  : M (list State) :=
  match names with
  | [] => ret []
  | n :: ns =>
      u <- run_node g st n ;;
      us <- run_all g st ns ;;
      ret (u :: us)
  end.

(** The keys an update holds replace the state's; the others stay. *)
Definition apply_update (st u : State) : State := u ∪ st.

(** Modelled from the spec: the graph runtime is library code; section 4.7
    has each stage read the shared state, set its field and hand over
    along its edge, the run ending where no edge leaves.  The nodes
    reached together run on the same state; a run of more steps than the
    graph has nodes is cut off. *)
Fixpoint superstep (fuel : nat) (g : StateGraph) (frontier : list string)
  (st : State) : M State :=
  match frontier with
  | [] => ret st
  | _ :: _ =>
      match fuel with
      | 0 => raise Py.GraphRecursionError
      | S fuel' =>
          us <- run_all g st frontier ;;
          superstep fuel' g (flat_map (successors (edges g)) frontier)
            (fold_left apply_update us st)
      end
  end.

(** [graph = graph_builder.compile()] and [graph.invoke(input)] *)
Definition graph : StateGraph := graph_builder.

Definition invoke (g : StateGraph) (input : State) : M State :=
  superstep (S (length (nodes g))) g (successors (edges g) START) input.

(** ** The script *)

(** [all_docs = web_docs + file_docs] *)
Definition all_docs (web_docs file_docs : list Document) : list Document :=
  web_docs ++ file_docs.

(** [hub.pull(name)] *)
Definition hub_pull (name : string) : M unit := emit (HubPull name).

(** The module body, statement by statement.  The answer printed at the
    end is the text the generate stage stored. *)
Definition main : M unit :=
  web_docs <- web_loader_load ;;
  print ("Loaded " +:+ Py.str (length web_docs) +:+ " web documents.") ;;;
  file_docs <- file_loader_load ;;
  let docs := all_docs web_docs file_docs in
  d <- lift (Py.first docs) ;;
  print ("Total characters: " +:+ Py.str (Py.len (page_content d))) ;;;
  all_splits <- text_splitter_split_documents docs ;;
  add_documents all_splits ;;;
  hub_pull prompt_name ;;;
  response <- invoke graph {["question" := VStr the_question]} ;;
  a <- getitem response "answer" ;;
  a <- as_str a ;;
  print a.

(** What one pass over the graph computes for the question [q] when the
    store holds [s]: the retrieved chunks, the rendered prompt, the answer. *)
Definition pipeline_context (s : list Entry) (q : string) : list Document :=
  search s (embeddings q) (default_k sv).

Definition pipeline_messages (s : list Entry) (q : string) : Msg :=
  render sv prompt_name q
    (Py.join Py.blank_line (map page_content (pipeline_context s q))).

Definition pipeline_answer (s : list Entry) (q : string) : string :=
  complete sv generativeModelName (pipeline_messages s q).

(** The world an outcome leaves behind. *)
Definition world_of {A} (o : Outcome A) : World :=
  match o with
  | Returned _ w => w
  | Raised _ w => w
  end.

(** The document sequences handed to the splitter, in order. *)
Fixpoint split_inputs (t : list event) : list (list Document) :=
  match t with
  | [] => []
  | SplitDocuments docs :: t' => docs :: split_inputs t'
  | _ :: t' => split_inputs t'
  end.

(** The world the script starts in: an empty store, nothing done yet. *)
Definition world0 : World := mkWorld [] [].

End Pipeline.

Arguments Returned {Vec Msg A} a w.
Arguments Raised {Vec Msg A} e w.

(** ** The specification's words

    Definitions that follow the specification's sentences, to be compared
    with the ones that follow the code. *)

(** Section 4.5: the retrieved chunks' contents, a blank line between each
    two, in the order given.  Built from the left: the first content, then
    for each later chunk a blank line and its content. *)
Definition context_text (chunks : list Document) : string :=
  match map page_content chunks with
  | [] => ""
  | c :: rest => fold_left (fun acc c' => acc +:+ Py.blank_line +:+ c') rest c
  end.

(** The start offset a chunk records, when it records one. *)
Definition start_index_of (c : Document) : option nat :=
  match metadata c !! "start_index" with
  | Some (MInt n) => Some n
  | _ => None
  end.

(** Section 6 names the file glob [*.txt]. *)
Definition spec_glob : string := "*.txt".

(** A file name with the extension [.txt]: the last segment of the path
    ends in those four characters. *)
Definition is_txt_file (path : string) : bool :=
  match last (Py.split_on "/"%char path) with
  | Some name => Py.endswith ".txt" name
  | None => false
  end.

(** The loader loads exactly the files that match [pattern], each as one
    document of its full text tagged with its path. *)
Definition loads_files_matching {Vec Dist Msg : Type}
  (sv : @Services Vec Dist Msg) (pattern : string) : Prop :=
  directory_load sv directory_path file_glob
  = map file_document
      (filter (fun f => glob_match pattern (fst f) = true)
         (files_below sv directory_path)).

(** Some suffix of [s], [s] itself included, satisfies [f]. *)
Fixpoint any_suffix (f : string -> bool) (s : string) : bool :=
  f s || match s with
         | EmptyString => false
         | String _ s' => any_suffix f s'
         end.

(** A pattern segment without [*]. *)
Fixpoint literal (p : string) : bool :=
  match p with
  | EmptyString => true
  | String c p' => negb (Ascii.eqb c "*"%char) && literal p'
  end.

(** *** Rank by distance, then by insertion *)

(** The elements of a list with their positions, counted from [i]. *)
Fixpoint enumerate_from {A} (i : nat) (l : list A) : list (nat * A) :=
  match l with
  | [] => []
  | x :: l' => (i, x) :: enumerate_from (S i) l'
  end.

(** Comparison of positioned elements by the element alone. *)
Definition le_snd {A} (le : A -> A -> bool) (p q : nat * A) : bool :=
  le (snd p) (snd q).

(** [p] ranks before [q]: it is smaller, or as small and earlier. *)
Definition ranks_before {A} (le : A -> A -> bool) (p q : nat * A) : Prop :=
  le (snd p) (snd q) = true /\ (le (snd q) (snd p) = false \/ fst p < fst q).

(** Section 4.4, for the entries at positions [i] and [j] of the store:
    the first is no farther from the query vector than the second, and
    either strictly nearer or inserted earlier. *)
Definition precedes {Vec Dist Msg : Type} (sv : @Services Vec Dist Msg)
  (es : list (@Entry Vec)) (qv : Vec) (i j : nat) : Prop :=
  exists a b, es !! i = Some a /\ es !! j = Some b /\
    closer sv qv a b = true /\ (closer sv qv b a = false \/ i < j).

(** ** A small environment

    Vectors and distances are numbers: a text is embedded as its length,
    and the distance is the absolute difference. *)

Definition demo_files : list (string * string) :=
  [("a.txt", "alpha beta"); ("notes/b.txt", "gamma");
   ("c.md", "no"); ("d.txt.bak", "x")].

Definition demo_services : @Services nat nat string :=
  mkServices
    (fun urls => map (fun u => mkDocument "hello web" {["source" := MStr u]}) urls)
    (fun _ => demo_files)
    (fun _ text => String.length text)
    (fun a b => (a - b) + (b - a))
    Nat.leb
    2
    (fun _ => 0)
    (fun _ q c => "Q: " +:+ q +:+ " C: " +:+ c)
    (fun _ m => "answer to " +:+ m).

(** The same environment with nothing to load. *)
Definition empty_services : @Services nat nat string :=
  mkServices
    (fun _ => [])
    (fun _ => [])
    (fun _ text => String.length text)
    (fun a b => (a - b) + (b - a))
    Nat.leb
    2
    (fun _ => 0)
    (fun _ q c => "Q: " +:+ q +:+ " C: " +:+ c)
    (fun _ m => "answer to " +:+ m).

(** A boundary policy: end the chunk after the last space of the window,
    and state no preference (0) when the window has no space. *)
Fixpoint after_last_space (w : string) : nat :=
  match w with
  | EmptyString => 0
  | String c w' =>
      match after_last_space w' with
      | 0 => if Ascii.eqb c " "%char then 1 else 0
      | S n => S (S n)
      end
  end.

(** The small environment with that policy. *)
Definition word_services : @Services nat nat string :=
  mkServices
    (web_fetch demo_services)
    (files_below demo_services)
    (embed demo_services)
    (distance demo_services)
    (dist_le demo_services)
    (default_k demo_services)
    after_last_space
    (render demo_services)
    (complete demo_services).

(** Two chunks, and states that hold them. *)
Definition demo_chunk_a : Document := mkDocument "alpha" {["source" := MStr "a.txt"]}.
Definition demo_chunk_b : Document := mkDocument "beta" {["source" := MStr "b.txt"]}.

Definition demo_state : State :=
  <["question" := VStr "which?"]>
    {["context" := VDocs [demo_chunk_a; demo_chunk_b]]}.

Definition demo_input : State := {["question" := VStr "which?"]}.

(** A world whose store holds the two chunks. *)
Definition demo_world : @World nat string :=
  mkWorld [mkEntry demo_chunk_a 5; mkEntry demo_chunk_b 4] [].

(** A store of four chunks, three of them equally far from the vector 4. *)
Definition demo_store : list (@Entry nat) :=
  [mkEntry demo_chunk_a 5; mkEntry demo_chunk_b 3;
   mkEntry demo_chunk_a 5; mkEntry demo_chunk_b 9].

(** ** Observations on a run *)

Section Observations.

Context {Vec Msg : Type}.

(** What a computation gave: the value returned or the exception raised. *)
Definition result_of {A} (o : @Outcome Vec Msg A) : Py.exn + A :=
  match o with
  | Returned a _ => inr a
  | Raised e _ => inl e
  end.










End Observations.

(** Where the item at position [i] starts in [sep.join(items)]. *)
Definition join_offset (sep : string) (items : list string) (i : nat) : nat :=
  sum_list (String.length <$> take i items) + i * String.length sep.

(** A state that already holds a context and an answer. *)
Definition demo_stale_state : State :=
  <["answer" := VStr "old answer"]>
    (<["context" := VDocs [demo_chunk_b]]> demo_input).

(** The state [demo_state] with an answer already in it. *)
Definition demo_answered_state : State :=
  <["answer" := VStr "old answer"]> demo_state.

(** The state [demo_state] with the chunks stripped of their metadata. *)
Definition demo_bare_state : State :=
  <["question" := VStr "which?"]>
    {["context" := VDocs [mkDocument "alpha" ∅; mkDocument "beta" ∅]]}.

(** The chunk of the file [a.txt] in the run on the small environment. *)
Definition demo_retrieved : Document :=
  mkDocument "alpha beta"
    (<["start_index" := MInt 0]> {["source" := MStr "a.txt"]}).

(** A state without a question. *)
Definition demo_no_question : State :=
  {["context" := VDocs [demo_chunk_a]]}.

(** * Properties *)

(** ** The definitions at work *)

Example join_three :
  Py.join ", " ["a"; "b"; "c"] = "a, b, c" /\ Py.join ", " ["a"] = "a" /\
  Py.join ", " [] = "".
Proof. repeat split. Qed.

Example glob_examples :
  glob_match "**/*.txt" "a.txt" = true /\
  glob_match "**/*.txt" "x/y/a.txt" = true /\
  glob_match "**/*.txt" "a.txt.bak" = false /\
  glob_match "*.txt" "a.txt" = true /\
  glob_match "*.txt" "x/a.txt" = false.
Proof. repeat split. Qed.

Example split_hard_cut :
  split_text demo_services 10 3 "abcdefghijklmnopqrstuvwxyz"
  = [(0, "abcdefghij"); (7, "hijklmnopq"); (14, "opqrstuvwx"); (21, "vwxyz")].
Proof. reflexivity. Qed.

Example split_at_words :
  split_text word_services 10 3 "one two three four"
  = [(0, "one two "); (5, "wo three "); (11, "ee four")].
Proof. reflexivity. Qed.

Example search_ties :
  search demo_services demo_store 4 2 = [demo_chunk_a; demo_chunk_b] /\
  search demo_services demo_store 4 3 = [demo_chunk_a; demo_chunk_b; demo_chunk_a] /\
  length (search demo_services demo_store 4 9) = 4.
Proof. repeat split. Qed.

(** ** Strings *)

Lemma append_cons c s t : String c s +:+ t = String c (s +:+ t).
Proof. reflexivity. Qed.

Lemma append_assoc s t u : s +:+ (t +:+ u) = (s +:+ t) +:+ u.
Proof. induction s as [|c s IH]; [reflexivity|]. now rewrite !append_cons, IH. Qed.

Lemma length_prefix n : forall s,
  String.length (Py.prefix n s) = Nat.min n (String.length s).
Proof.
  induction n as [|n IH]; intros [|c s]; cbn; try reflexivity.
  now rewrite IH.
Qed.

Lemma length_suffix n : forall s,
  String.length (Py.suffix n s) = String.length s - n.
Proof.
  induction n as [|n IH]; intros [|c s]; cbn; try reflexivity; try lia.
  apply IH.
Qed.

Lemma suffix_suffix a : forall b s,
  Py.suffix a (Py.suffix b s) = Py.suffix (b + a) s.
Proof.
  intros b. induction b as [|b IH]; intros s.
  - reflexivity.
  - destruct s as [|c s].
    + cbn. destruct a; reflexivity.
    + cbn. apply IH.
Qed.

Lemma prefix_all n : forall s, String.length s <= n -> Py.prefix n s = s.
Proof.
  induction n as [|n IH]; intros [|c s] H; cbn in *; try reflexivity; try lia.
  f_equal. apply IH. lia.
Qed.

(** A loop that appends to an accumulator builds the concatenation. *)
Lemma fold_left_app_concat {A B} (f : A -> list B) (l : list A) : forall acc,
  fold_left (fun acc a => acc ++ f a) l acc = acc ++ concat (map f l).
Proof.
  induction l as [|a l IH]; intros acc; cbn.
  - now rewrite app_nil_r.
  - rewrite IH. now rewrite <- app_assoc.
Qed.

(** ** [join] against the specification's wording *)

Lemma join_cons_append sep c x rest :
  Py.join sep ((c +:+ sep +:+ x) :: rest) = c +:+ sep +:+ Py.join sep (x :: rest).
Proof.
  destruct rest as [|y r]; [reflexivity|].
  change (Py.join sep ((c +:+ sep +:+ x) :: y :: r))
    with ((c +:+ sep +:+ x) +:+ sep +:+ Py.join sep (y :: r)).
  change (Py.join sep (x :: y :: r)) with (x +:+ sep +:+ Py.join sep (y :: r)).
  now rewrite <- !append_assoc.
Qed.

Lemma join_fold_left sep rest : forall c,
  fold_left (fun acc c' => acc +:+ sep +:+ c') rest c = Py.join sep (c :: rest).
Proof.
  induction rest as [|x rest IH]; intros c; [reflexivity|].
  cbn [fold_left]. rewrite IH. apply join_cons_append.
Qed.

Lemma join_context_text docs :
  Py.join Py.blank_line (map page_content docs) = context_text docs.
Proof.
  unfold context_text. destruct (map page_content docs) as [|c rest]; [reflexivity|].
  symmetry. apply join_fold_left.
Qed.

(** ** Stable insertion sort *)

Section Sorting.

Context {A : Type} (le : A -> A -> bool).
Hypothesis le_total : forall x y, le x y = true \/ le y x = true.
Hypothesis le_trans : forall x y z, le x y = true -> le y z = true -> le x z = true.

Lemma insert_by_perm {B} (f : B -> B -> bool) x l : insert_by f x l ≡ₚ x :: l.
Proof.
  induction l as [|y l IH]; cbn; [reflexivity|].
  destruct (f x y); [reflexivity|].
  rewrite IH. apply Permutation_swap.
Qed.

Lemma stable_sort_perm {B} (f : B -> B -> bool) l : stable_sort f l ≡ₚ l.
Proof.
  induction l as [|y l IH]; cbn; [reflexivity|].
  fold (stable_sort f l). rewrite insert_by_perm. now rewrite IH.
Qed.

(** Sorting positioned elements and forgetting the positions is sorting
    the elements. *)
Lemma insert_by_fmap x (l : list (nat * A)) :
  snd <$> insert_by (le_snd le) x l = insert_by le (snd x) (snd <$> l).
Proof.
  induction l as [|y l IH]; cbn; [reflexivity|].
  unfold le_snd at 1. destruct (le (snd x) (snd y)); cbn; [reflexivity|].
  now rewrite <- IH.
Qed.

Lemma stable_sort_fmap (l : list (nat * A)) :
  snd <$> stable_sort (le_snd le) l = stable_sort le (snd <$> l).
Proof.
  induction l as [|y l IH]; cbn; [reflexivity|].
  fold (stable_sort (le_snd le) l). fold (stable_sort le (snd <$> l)).
  rewrite insert_by_fmap. now rewrite IH.
Qed.

(** An element that came before all of a ranked list stays ahead of the
    elements it does not exceed. *)
Lemma insert_by_sorted x l :
  StronglySorted (ranks_before le) l ->
  Forall (fun q => fst x < fst q) l ->
  StronglySorted (ranks_before le) (insert_by (le_snd le) x l).
Proof.
  induction l as [|y l IH]; intros Hs Hx; cbn.
  - repeat constructor.
  - apply StronglySorted_cons in Hs as [Hy Hs].
    apply Forall_cons in Hx as [Hxy Hx].
    unfold le_snd at 1. destruct (le (snd x) (snd y)) eqn:E.
    + apply StronglySorted_cons. split; [|apply StronglySorted_cons; auto].
      constructor.
      * split; [exact E|right; exact Hxy].
      * rewrite Forall_forall in Hy, Hx |- *. intros z Hz. split.
        -- eapply le_trans; [exact E|]. apply (Hy z Hz).
        -- right. apply (Hx z Hz).
    + apply StronglySorted_cons. split; [|apply IH; auto].
      rewrite insert_by_perm. constructor; [|exact Hy].
      split; [|left; exact E].
      destruct (le_total (snd x) (snd y)) as [H|H]; [congruence|exact H].
Qed.

Lemma stable_sort_sorted l :
  StronglySorted (fun p q => fst p < fst q) l ->
  StronglySorted (ranks_before le) (stable_sort (le_snd le) l).
Proof.
  induction l as [|x l IH]; intros Hs; cbn; [constructor|].
  fold (stable_sort (le_snd le) l).
  apply StronglySorted_cons in Hs as [Hx Hs].
  apply insert_by_sorted; [auto|].
  now rewrite stable_sort_perm.
Qed.

End Sorting.

Lemma enumerate_from_snd {A} (l : list A) : forall i, snd <$> enumerate_from i l = l.
Proof. induction l as [|x l IH]; intros i; cbn; [reflexivity|]. now rewrite IH. Qed.

Lemma enumerate_from_elem {A} (l : list A) : forall i p,
  p ∈ enumerate_from i l <-> i <= fst p /\ l !! (fst p - i) = Some (snd p).
Proof.
  induction l as [|x l IH]; intros i [j e]; cbn [enumerate_from fst snd].
  - split; [intros H; inversion H|intros [_ H]; discriminate].
  - rewrite elem_of_cons, IH. cbn [fst snd]. split.
    + intros [H|[H1 H2]].
      * injection H as -> ->. rewrite Nat.sub_diag. auto.
      * split; [lia|]. replace (j - i) with (S (j - S i)) by lia. exact H2.
    + intros [H1 H2]. destruct (decide (j = i)) as [->|Hne].
      * left. rewrite Nat.sub_diag in H2. cbn in H2. now injection H2 as ->.
      * right. split; [lia|].
        replace (j - i) with (S (j - S i)) in H2 by lia. exact H2.
Qed.

Lemma enumerate_from_increasing {A} (l : list A) : forall i,
  StronglySorted (fun p q : nat * A => fst p < fst q) (enumerate_from i l).
Proof.
  induction l as [|x l IH]; intros i; cbn; constructor; [apply IH|].
  apply Forall_forall. intros q Hq. apply enumerate_from_elem in Hq. cbn. lia.
Qed.

Lemma StronglySorted_lookup {A} (R : A -> A -> Prop) l :
  StronglySorted R l ->
  forall a b x y, a < b -> l !! a = Some x -> l !! b = Some y -> R x y.
Proof.
  induction 1 as [|z l Hs IH Hz]; intros a b x y Hab Ha Hb; [discriminate|].
  destruct b as [|b]; [lia|]. cbn in Hb.
  destruct a as [|a].
  - cbn in Ha. injection Ha as <-.
    rewrite Forall_forall in Hz. apply Hz. eapply list_elem_of_lookup_2; eauto.
  - cbn in Ha. eapply IH; [|eassumption..]. lia.
Qed.

(** ** Glob patterns *)

Lemma wildcard_literal p : literal p = true -> forall s, wildcard p s = String.eqb p s.
Proof.
  induction p as [|c p IH]; intros Hp s.
  - destruct s; reflexivity.
  - cbn in Hp. apply andb_true_iff in Hp as [Hc Hp].
    apply negb_true_iff in Hc. cbn [wildcard]. rewrite Hc.
    destruct s as [|d s]; [reflexivity|]. cbn [String.eqb].
    rewrite (IH Hp). reflexivity.
Qed.

Lemma wildcard_star p s :
  wildcard (String "*"%char p) s = any_suffix (wildcard p) s.
Proof.
  cbn [wildcard]. rewrite Ascii.eqb_refl.
  induction s as [|c s IH]; cbn [any_suffix]; [reflexivity|].
  now rewrite <- IH.
Qed.

Lemma eqb_length_ne p s : String.length p <> String.length s -> String.eqb p s = false.
Proof. intros H. apply String.eqb_neq. intros ->. contradiction. Qed.

Lemma endswith_cons p c s :
  Py.endswith p (String c s) = String.eqb p (String c s) || Py.endswith p s.
Proof.
  unfold Py.endswith. cbn [String.length].
  destruct (String.length p <=? String.length s) eqn:E1.
  - apply Nat.leb_le in E1.
    replace (String.length p <=? S (String.length s)) with true
      by (symmetry; apply Nat.leb_le; lia).
    replace (S (String.length s) - String.length p)
      with (S (String.length s - String.length p)) by lia.
    cbn [Py.suffix].
    rewrite (eqb_length_ne p (String c s)) by (cbn [String.length]; lia).
    reflexivity.
  - apply Nat.leb_gt in E1. rewrite orb_false_r.
    destruct (String.length p <=? S (String.length s)) eqn:E2.
    + apply Nat.leb_le in E2.
      replace (S (String.length s) - String.length p) with 0 by lia.
      cbn [Py.suffix]. apply String.eqb_sym.
    + apply Nat.leb_gt in E2. symmetry. apply eqb_length_ne. cbn. lia.
Qed.

Lemma any_suffix_endswith p s : any_suffix (String.eqb p) s = Py.endswith p s.
Proof.
  induction s as [|c s IH].
  - cbn. rewrite orb_false_r. unfold Py.endswith. cbn.
    destruct p; reflexivity.
  - cbn [any_suffix]. rewrite IH. now rewrite endswith_cons.
Qed.

Lemma any_suffix_ext f g s : (forall x, f x = g x) -> any_suffix f s = any_suffix g s.
Proof. intros H. induction s as [|c s IH]; cbn; rewrite H; [reflexivity|now rewrite IH]. Qed.

Lemma wildcard_txt s : wildcard "*.txt" s = Py.endswith ".txt" s.
Proof.
  rewrite wildcard_star. rewrite <- any_suffix_endswith.
  apply any_suffix_ext. intros x. now apply wildcard_literal.
Qed.

Lemma glob_segments_descend q path :
  String.eqb q "**" = false ->
  glob_segments ["**"; q] path =
    match last path with
    | Some name => wildcard q name
    | None => false
    end.
Proof.
  intros Hq. cbn [glob_segments]. 
  replace (String.eqb "**" "**") with true by reflexivity.
  rewrite Hq.
  induction path as [|seg path IH]; [reflexivity|].
  rewrite IH. destruct path as [|y r]; cbn [last].
  - now rewrite andb_true_r, orb_false_r.
  - now rewrite andb_false_r.
Qed.

Lemma glob_match_txt path : glob_match file_glob path = is_txt_file path.
Proof.
  unfold glob_match, is_txt_file.
  change (Py.split_on "/"%char file_glob) with ["**"; "*.txt"].
  rewrite glob_segments_descend by reflexivity.
  destruct (last _); [apply wildcard_txt|reflexivity].
Qed.

(** ** Running a computation *)

Section Properties.

Context {Vec Dist Msg : Type}.
Variable sv : @Services Vec Dist Msg.

Abbreviation W := (@World Vec Msg).

Lemma bind_returned {A B} (m : M A) (f : A -> M B) (w w' : W) a :
  m w = Returned a w' -> bind m f w = f a w'.
Proof. intros H. unfold bind. now rewrite H. Qed.

Lemma getitem_some (st : State) key v (w : W) :
  st !! key = Some v -> getitem st key w = Returned v w.
Proof. intros H. unfold getitem. now rewrite H. Qed.

(** ** The two stages, run *)

Lemma retrieve_returns (st : State) q (w : W) :
  st !! "question" = Some (VStr q) ->
  retrieve sv st w =
    Returned {["context" := VDocs (pipeline_context sv (store w) q)]}
             (mkWorld (store w) (trace w ++ [SimilaritySearch q])).
Proof.
  intros Hq. unfold retrieve.
  rewrite (bind_returned _ _ _ _ _ (getitem_some _ _ _ _ Hq)).
  reflexivity.
Qed.

Lemma generate_returns (st : State) q docs (w : W) :
  st !! "question" = Some (VStr q) ->
  st !! "context" = Some (VDocs docs) ->
  let c := Py.join Py.blank_line (map page_content docs) in
  let messages := render sv prompt_name q c in
  generate sv st w =
    Returned {["answer" := VStr (complete sv generativeModelName messages)]}
             (mkWorld (store w)
                (trace w ++ [PromptInvoke q c; LlmInvoke generativeModelName messages])).
Proof.
  intros Hq Hc c messages. unfold generate.
  rewrite (bind_returned _ _ _ _ _ (getitem_some _ _ _ _ Hc)).
  cbn [as_docs].
  unfold bind at 1. cbn [ret].
  rewrite (bind_returned _ _ _ _ _ (getitem_some _ _ _ _ Hq)).
  unfold bind, as_str, ret, prompt_invoke, llm_invoke, emit, bind, ret. cbn.
  rewrite <- app_assoc. reflexivity.
Qed.

(** The compiled graph runs [retrieve], then [generate], and stops. *)
Lemma invoke_graph (input : State) (w : W) :
  invoke (graph sv) input w =
  bind (retrieve sv input)
       (fun u => bind (generate sv (apply_update input u))
                   (fun u' => ret (apply_update (apply_update input u) u'))) w.
Proof.
  unfold invoke, graph, graph_builder, add_edge, add_sequence, empty_graph.
  cbn. unfold bind.
  destruct (retrieve sv input w) as [u w1|e w1]; cbn; [|reflexivity].
  destruct (generate sv (apply_update input u) w1); reflexivity.
Qed.

Lemma invoke_returns (input : State) q (w : W) :
  input !! "question" = Some (VStr q) ->
  let docs := pipeline_context sv (store w) q in
  let u1 : State := {["context" := VDocs docs]} in
  let u2 : State := {["answer" := VStr (pipeline_answer sv (store w) q)]} in
  invoke (graph sv) input w =
    Returned (apply_update (apply_update input u1) u2)
      (mkWorld (store w)
         (trace w ++
            [SimilaritySearch q;
             PromptInvoke q (Py.join Py.blank_line (map page_content docs));
             LlmInvoke generativeModelName (pipeline_messages sv (store w) q)])).
Proof.
  intros Hq docs u1 u2. rewrite invoke_graph.
  rewrite (bind_returned _ _ _ _ _ (retrieve_returns _ _ _ Hq)).
  fold (pipeline_context sv (store w) q). fold docs. fold u1.
  assert (H1 : apply_update input u1 !! "question" = Some (VStr q)).
  { unfold apply_update, u1. rewrite lookup_union_r; [done|].
    now apply lookup_singleton_ne. }
  assert (H2 : apply_update input u1 !! "context" = Some (VDocs docs)).
  { unfold apply_update, u1. apply lookup_union_Some_l, lookup_singleton_eq. }
  rewrite (bind_returned _ _ _ _ _ (generate_returns _ _ _ _ H1 H2)).
  cbn. rewrite <- app_assoc. reflexivity.
Qed.

(** ** The script, run

    The whole run in one equation: it stops with [IndexError] at the
    character count when nothing was loaded, and goes through otherwise. *)
Lemma main_runs :
  let web_docs := web_fetch sv web_paths in
  let file_docs := directory_load sv directory_path file_glob in
  let docs := all_docs web_docs file_docs in
  let splits := split_documents sv chunk_size chunk_overlap add_start_index docs in
  let s := map (fun d => mkEntry d (embeddings sv (page_content d))) splits in
  let t0 := [WebLoad web_paths;
             Print ("Loaded " +:+ Py.str (length web_docs) +:+ " web documents.");
             DirectoryLoad directory_path file_glob] in
  main sv world0 =
    match Py.first docs with
    | inl e => Raised e (mkWorld [] t0)
    | inr d =>
        Returned tt
          (mkWorld s
             (t0 ++
              [Print ("Total characters: " +:+ Py.str (Py.len (page_content d)));
               SplitDocuments docs;
               AddDocuments splits;
               HubPull prompt_name;
               SimilaritySearch the_question;
               PromptInvoke the_question
                 (Py.join Py.blank_line
                    (map page_content (pipeline_context sv s the_question)));
               LlmInvoke generativeModelName (pipeline_messages sv s the_question);
               Print (pipeline_answer sv s the_question)]))
    end.
Proof.
  intros web_docs file_docs docs splits s t0.
  unfold main.
  unfold web_loader_load, file_loader_load, print, emit.
  unfold bind at 1 2. cbn [ret trace store world0 app].
  unfold bind at 1. unfold bind at 1 2. cbn [ret trace store app].
  fold web_docs. fold file_docs. fold docs.
  destruct (Py.first docs) as [e|d]; [reflexivity|].
  unfold lift. unfold bind at 1. cbn [ret].
  unfold bind at 1. cbn [trace store app].
  unfold text_splitter_split_documents, add_documents, hub_pull, emit, get_store, put_store.
  unfold bind at 1 2. cbn [ret trace store app].
  fold splits.
  unfold bind at 1 2 3. cbn [ret trace store app]. fold s.
  unfold bind at 1 2. cbn [trace store app].
  assert (Hq : ({["question" := VStr the_question]} : State) !! "question"
               = Some (VStr the_question)) by apply lookup_singleton_eq.
  rewrite (invoke_returns _ _ _ Hq).
  cbn [store trace].
  erewrite bind_returned.
  2:{ apply getitem_some. unfold apply_update.
      apply lookup_union_Some_l, lookup_singleton_eq. }
  cbn. reflexivity.
Qed.

(** ** The generate stage and its prompt *)

(** C3: for every pipeline state that holds a question and, as its context,
    a sequence of retrieved chunks, the generate stage hands the prompt
    template the chunks' contents with a blank line between each two, in
    the order of the sequence, and the model the prompt rendered from it. *)
Theorem generate_context_text (st : State) q docs (w : W) :
  st !! "question" = Some (VStr q) ->
  st !! "context" = Some (VDocs docs) ->
  exists u,
    generate sv st w =
      Returned u
        (mkWorld (store w)
           (trace w ++
              [PromptInvoke q (context_text docs);
               LlmInvoke generativeModelName
                 (render sv prompt_name q (context_text docs))])).
Proof.
  intros Hq Hc. eexists.
  rewrite (generate_returns _ _ _ _ Hq Hc). cbv zeta.
  rewrite join_context_text. reflexivity.
Qed.

(** ** The graph *)

(** C4: from any state that holds a question, the retrieve stage returns
    and sets the context key, to the chunks the search gives for the
    question, leaving every other key as it was; the generate stage then
    returns and sets the answer key, leaving every other key as it was;
    the graph has the two edges start-retrieve and retrieve-generate and
    no other, an invocation is exactly that sequence, it leaves the store
    as it found it, and its result does not depend on earlier calls. *)
Theorem pipeline_two_stages (input : State) q (w : W) :
  input !! "question" = Some (VStr q) ->
  let docs := pipeline_context sv (store w) q in
  exists u1 w1 u2 w2,
    retrieve sv input w = Returned u1 w1 /\
    apply_update input u1 !! "context" = Some (VDocs docs) /\
    (forall key, key <> "context" ->
       apply_update input u1 !! key = input !! key) /\
    generate sv (apply_update input u1) w1 = Returned u2 w2 /\
    is_Some (apply_update (apply_update input u1) u2 !! "answer") /\
    (forall key, key <> "answer" ->
       apply_update (apply_update input u1) u2 !! key
       = apply_update input u1 !! key) /\
    edges (graph sv) = [("retrieve", "generate"); (START, "retrieve")] /\
    map fst (nodes (graph sv)) = ["retrieve"; "generate"] /\
    successors (edges (graph sv)) "generate" = [] /\
    invoke (graph sv) input w
      = Returned (apply_update (apply_update input u1) u2) w2 /\
    store w2 = store w /\
    trace w2 = trace w ++
      [SimilaritySearch q;
       PromptInvoke q (Py.join Py.blank_line (map page_content docs));
       LlmInvoke generativeModelName (pipeline_messages sv (store w) q)] /\
    (forall w' : W, store w' = store w ->
       exists w2', invoke (graph sv) input w'
                   = Returned (apply_update (apply_update input u1) u2) w2').
Proof.
  intros Hq docs.
  pose (u1 := ({["context" := VDocs docs]} : State)).
  assert (H1 : apply_update input u1 !! "question" = Some (VStr q)).
  { unfold apply_update, u1. rewrite lookup_union_r; [done|].
    now apply lookup_singleton_ne. }
  assert (H2 : apply_update input u1 !! "context" = Some (VDocs docs)).
  { unfold apply_update, u1. apply lookup_union_Some_l, lookup_singleton_eq. }
  eexists u1, _, _, _.
  split; [apply (retrieve_returns _ _ _ Hq)|].
  split; [exact H2|].
  split.
  { intros key Hk. unfold apply_update, u1.
    apply lookup_union_r. apply lookup_singleton_ne. congruence. }
  split; [apply (generate_returns _ _ _ _ H1 H2)|].
  split.
  { unfold apply_update at 1. rewrite lookup_union, lookup_singleton_eq.
    rewrite union_Some_l. eauto. }
  split.
  { intros key Hk. unfold apply_update at 1.
    apply lookup_union_r. apply lookup_singleton_ne. congruence. }
  split; [reflexivity|]. split; [reflexivity|]. split; [reflexivity|].
  split.
  { rewrite (invoke_returns _ _ _ Hq). cbn [store trace].
    rewrite <- app_assoc. reflexivity. }
  split; [reflexivity|].
  split.
  { cbn [store trace]. rewrite <- app_assoc. reflexivity. }
  intros w' Hw'. eexists. rewrite (invoke_returns _ _ _ Hq).
  rewrite Hw'. reflexivity.
Qed.

(** C7: when the store holds no chunk, an invocation on a state that holds
    a question still runs both stages: the context it retrieves is the
    empty sequence, the prompt is rendered with the empty string as its
    context, and the generative model is called on that prompt. *)
Theorem empty_store_still_generates (input : State) q (w : W) :
  input !! "question" = Some (VStr q) ->
  store w = [] ->
  exists st w',
    retrieve sv input w
      = Returned {["context" := VDocs []]}
          (mkWorld (store w) (trace w ++ [SimilaritySearch q])) /\
    invoke (graph sv) input w = Returned st w' /\
    st !! "context" = Some (VDocs []) /\
    st !! "answer"
      = Some (VStr (complete sv generativeModelName (render sv prompt_name q ""))) /\
    trace w' = trace w ++
      [SimilaritySearch q;
       PromptInvoke q "";
       LlmInvoke generativeModelName (render sv prompt_name q "")].
Proof.
  intros Hq Hs.
  assert (Hd : pipeline_context sv (store w) q = []).
  { rewrite Hs. unfold pipeline_context, search, stable_sort.
    cbn [fold_right]. now rewrite take_nil. }
  eexists _, _.
  split. { rewrite (retrieve_returns _ _ _ Hq), Hd. reflexivity. }
  split. { apply (invoke_returns _ _ _ Hq). }
  split.
  { unfold apply_update at 1. rewrite lookup_union_r by done.
    unfold apply_update. rewrite Hd.
    apply lookup_union_Some_l, lookup_singleton_eq. }
  split.
  { unfold apply_update at 1. unfold pipeline_answer, pipeline_messages.
    rewrite Hd. apply lookup_union_Some_l, lookup_singleton_eq. }
  cbn [trace]. unfold pipeline_messages. rewrite Hd. reflexivity.
Qed.

(** ** The script's corpus and output *)

(** C5: the sequence handed to the splitter is the web loader's documents
    followed by the file loader's: its first elements, as many as the web
    loader returned, are the web documents in their order, and what
    follows is the file documents in theirs.  A run that gets as far as
    the splitter hands it that sequence, once. *)
Theorem combined_corpus_web_first :
  let web_docs := web_fetch sv web_paths in
  let file_docs := directory_load sv directory_path file_glob in
  let docs := all_docs web_docs file_docs in
  take (length web_docs) docs = web_docs /\
  drop (length web_docs) docs = file_docs /\
  length docs = length web_docs + length file_docs /\
  split_inputs (trace (world_of (main sv world0)))
    = match docs with [] => [] | _ :: _ => [docs] end.
Proof.
  intros web_docs file_docs docs. unfold docs, all_docs.
  split; [apply take_app_length|].
  split; [apply drop_app_length|].
  split; [apply length_app|].
  rewrite main_runs. cbv zeta. fold web_docs file_docs.
  unfold all_docs.
  destruct (web_docs ++ file_docs) as [|d rest]; reflexivity.
Qed.

(** C9: a run that completes has written three lines to standard output
    and nothing else: the count of web documents, the character count of
    the first document of the combined sequence, and the answer the
    generative model gave. *)
Theorem complete_run_stdout (w : W) :
  main sv world0 = Returned tt w ->
  let web_docs := web_fetch sv web_paths in
  let file_docs := directory_load sv directory_path file_glob in
  exists d rest,
    all_docs web_docs file_docs = d :: rest /\
    stdout (trace w) =
      ["Loaded " +:+ Py.str (length web_docs) +:+ " web documents.";
       "Total characters: " +:+ Py.str (Py.len (page_content d));
       pipeline_answer sv (store w) the_question].
Proof.
  intros Hrun web_docs file_docs.
  rewrite main_runs in Hrun. cbv zeta in Hrun.
  fold web_docs file_docs in Hrun.
  destruct (all_docs web_docs file_docs) as [|d rest]; [discriminate|].
  cbn [Py.first] in Hrun. inversion Hrun; subst w.
  exists d, rest. split; reflexivity.
Qed.

(** C10: the character count takes the first element of the combined
    sequence.  That fails with an index error exactly when both loaders
    returned nothing and succeeds exactly when one of them returned a
    document; when it fails, the run ends there: the web count has been
    printed, and nothing has been split, indexed or asked. *)
Theorem empty_corpus_index_error :
  let web_docs := web_fetch sv web_paths in
  let file_docs := directory_load sv directory_path file_glob in
  let docs := all_docs web_docs file_docs in
  (Py.first docs = inl Py.IndexError <-> web_docs = [] /\ file_docs = []) /\
  ((exists d, Py.first docs = inr d) <-> web_docs <> [] \/ file_docs <> []) /\
  (web_docs = [] -> file_docs = [] ->
   main sv world0 =
     Raised Py.IndexError
       (mkWorld []
          [WebLoad web_paths;
           Print "Loaded 0 web documents.";
           DirectoryLoad directory_path file_glob])).
Proof.
  intros web_docs file_docs docs. split; [|split].
  - unfold docs, all_docs. split.
    + intros H. destruct web_docs; [|discriminate].
      destruct file_docs; [auto|discriminate].
    + intros [-> ->]. reflexivity.
  - unfold docs, all_docs. split.
    + intros [d H]. destruct web_docs; [|left; discriminate].
      destruct file_docs; [discriminate|right; discriminate].
    + intros H. destruct web_docs as [|a l]; [|cbn; eauto].
      destruct file_docs as [|b l']; [|cbn; eauto].
      destruct H; congruence.
  - intros Hw Hf. rewrite main_runs. cbv zeta.
    fold web_docs file_docs. rewrite Hw, Hf. reflexivity.
Qed.

(** ** The splitter *)

Lemma chunk_len_bounds L O s : O < L -> O < chunk_len sv L O s <= L.
Proof.
  intros H. unfold chunk_len.
  destruct (_ && _) eqn:E; [|lia].
  apply andb_true_iff in E as [E1 E2].
  apply Nat.ltb_lt in E1. apply Nat.leb_le in E2. lia.
Qed.

Lemma split_from_head fuel L O off s oc rest :
  split_from sv fuel L O off s = oc :: rest -> fst oc = off.
Proof.
  destruct fuel as [|fuel]; cbn; [discriminate|].
  destruct (String.length s =? 0); [discriminate|].
  destruct (String.length s <=? L); intros H; injection H as <- _; reflexivity.
Qed.

(** With fuel for every character, the walk over the text [s], which sits
    at offset [off] of [parent], yields windows of [parent] of at most [L]
    characters, each starting after the one before and at most [L - O]
    further, the last one ending where [s] ends. *)
Lemma split_from_spec L O parent : O < L ->
  forall fuel off s,
    s = Py.suffix off parent ->
    String.length s <= fuel ->
    let r := split_from sv fuel L O off s in
    Forall (fun oc =>
              off <= fst oc /\
              snd oc = Py.slice (fst oc) (String.length (snd oc)) parent /\
              0 < String.length (snd oc) <= L /\
              fst oc + String.length (snd oc) <= off + String.length s) r /\
    (forall i a b, r !! i = Some a -> r !! S i = Some b ->
       fst a < fst b <= fst a + (L - O)) /\
    (0 < String.length s ->
       exists oc, last r = Some oc /\
                  fst oc + String.length (snd oc) = off + String.length s).
Proof.
  intros HOL. induction fuel as [|fuel IH]; intros off s Hs Hlen r.
  - subst r. cbn. split; [constructor|]. split; [intros i a b H; discriminate|].
    intros H; lia.
  - subst r. cbn [split_from].
    destruct (String.length s =? 0) eqn:E0.
    { apply Nat.eqb_eq in E0. split; [constructor|].
      split; [intros i a b H; discriminate|]. intros H; lia. }
    apply Nat.eqb_neq in E0.
    destruct (String.length s <=? L) eqn:EL.
    { apply Nat.leb_le in EL. split.
      - constructor; [|constructor]. cbn [fst snd].
        split; [lia|]. split; [|lia].
        unfold Py.slice. rewrite <- Hs. symmetry. now apply prefix_all.
      - split.
        + intros i a b H1 H2. destruct i; discriminate.
        + intros _. exists (off, s). split; reflexivity. }
    apply Nat.leb_gt in EL.
    pose proof (chunk_len_bounds L O s HOL) as Hn.
    set (n := chunk_len sv L O s) in *.
    set (off' := off + (n - O)).
    set (s' := Py.suffix (n - O) s).
    assert (Hs' : s' = Py.suffix off' parent).
    { unfold s', off'. rewrite Hs. apply suffix_suffix. }
    assert (Hlen' : String.length s' = String.length s - (n - O)).
    { unfold s'. apply length_suffix. }
    destruct (IH off' s' Hs' ltac:(lia)) as (IH1 & IH2 & IH3).
    assert (Hp : String.length (Py.prefix n s) = n).
    { rewrite length_prefix. lia. }
    split; [|split].
    + constructor.
      * cbn [fst snd]. rewrite Hp. split; [lia|]. split; [|lia].
        unfold Py.slice. now rewrite <- Hs.
      * eapply Forall_impl; [exact IH1|].
        intros [o c]; cbn [fst snd]. intros (H1 & H2 & H3 & H4).
        split; [unfold off' in H1; lia|]. split; [exact H2|].
        split; [exact H3|]. unfold off' in H4; lia.
    + intros [|i] a b Ha Hb.
      * cbn in Ha. injection Ha as <-. cbn [fst].
        cbn in Hb. destruct (split_from sv fuel L O off' s') as [|x r'] eqn:Er;
          [discriminate|].
        cbn in Hb. injection Hb as <-.
        apply split_from_head in Er. rewrite Er. unfold off'. lia.
      * cbn in Ha, Hb. eapply IH2; eassumption.
    + intros _. destruct (IH3 ltac:(lia)) as (oc & Hl & Hoc).
      exists oc. split.
      * destruct (split_from sv fuel L O off' s') as [|x r'] eqn:Er;
          [discriminate|].
        rewrite last_cons. now rewrite Hl.
      * rewrite Hoc. unfold off'. lia.
Qed.

Lemma split_documents_concat L O b docs :
  split_documents sv L O b docs = concat (map (split_document sv L O b) docs).
Proof. unfold split_documents. now rewrite fold_left_app_concat. Qed.

(** C2: with the splitter the script builds (at most 1000 characters,
    overlap 200, start offsets recorded), every chunk of a document has at
    most 1000 characters and records, as its start offset, the place of
    its content in the document; of two consecutive chunks of a document
    the second starts after the first and at most 800 characters further,
    wherever the boundary policy lets chunks end; and the chunks reach the
    end of the document. *)
Theorem split_chunks_bounded (d : Document) :
  let chunks := split_document sv chunk_size chunk_overlap add_start_index d in
  Forall (fun c =>
            String.length (page_content c) <= 1000 /\
            exists o, start_index_of c = Some o /\
                      page_content c
                      = Py.slice o (String.length (page_content c)) (page_content d))
         chunks /\
  (forall i c1 c2, chunks !! i = Some c1 -> chunks !! S i = Some c2 ->
     exists o1 o2, start_index_of c1 = Some o1 /\ start_index_of c2 = Some o2 /\
                   o1 < o2 /\ o2 <= o1 + 800) /\
  (page_content d <> "" ->
     exists c o, last chunks = Some c /\ start_index_of c = Some o /\
                 o + String.length (page_content c) = String.length (page_content d)).
Proof.
  intros chunks.
  assert (HOL : chunk_overlap < chunk_size) by (unfold chunk_overlap, chunk_size; lia).
  destruct (split_from_spec chunk_size chunk_overlap (page_content d) HOL
              (String.length (page_content d)) 0 (page_content d)
              eq_refl ltac:(lia)) as (H1 & H2 & H3).
  fold (split_text sv chunk_size chunk_overlap (page_content d)) in H1, H2, H3.
  assert (Hstart : forall oc,
            start_index_of
              (mkDocument (snd oc) (<["start_index" := MInt (fst oc)]> (metadata d)))
            = Some (fst oc)).
  { intros oc. unfold start_index_of. cbn [metadata].
    now rewrite lookup_insert_eq. }
  unfold chunks, split_document, add_start_index.
  split; [|split].
  - apply Forall_fmap. eapply Forall_impl; [exact H1|].
    intros oc (_ & Hc & Hl & _). cbn [page_content]. unfold compose.
    split; [unfold chunk_size in Hl; cbn [page_content]; lia|].
    exists (fst oc). split; [apply Hstart|exact Hc].
  - intros i c1 c2 Hc1 Hc2.
    rewrite list_lookup_fmap in Hc1, Hc2.
    destruct (split_text sv chunk_size chunk_overlap (page_content d) !! i)
      as [a|] eqn:Ea; [|discriminate].
    destruct (split_text sv chunk_size chunk_overlap (page_content d) !! S i)
      as [b|] eqn:Eb; [|discriminate].
    cbn in Hc1, Hc2. injection Hc1 as <-. injection Hc2 as <-.
    exists (fst a), (fst b). rewrite !Hstart.
    specialize (H2 i a b Ea Eb). unfold chunk_size, chunk_overlap in H2.
    repeat split; lia.
  - intros Hne.
    assert (Hpos : 0 < String.length (page_content d)).
    { destruct (page_content d); [congruence|cbn; lia]. }
    destruct (H3 Hpos) as (oc & Hl & Hoc).
    eexists _, (fst oc). split; [|split].
    + rewrite fmap_last, Hl. reflexivity.
    + apply Hstart.
    + cbn [page_content]. lia.
Qed.

(** C6: the chunks of a sequence of documents are the chunks of the first
    document, then those of the second, and so on: the loop's result is
    the concatenation of the per-document results in the input order, so
    every chunk of a document comes after every chunk of the documents
    before it and before every chunk of the documents after it. *)
Theorem split_documents_keeps_order L O b (docs : list Document) :
  split_documents sv L O b docs = concat (map (split_document sv L O b) docs) /\
  (forall before d after,
     split_documents sv L O b (before ++ d :: after)
     = split_documents sv L O b before
       ++ split_document sv L O b d
       ++ split_documents sv L O b after).
Proof.
  split; [apply split_documents_concat|].
  intros before d after. rewrite !split_documents_concat.
  rewrite map_app, concat_app. reflexivity.
Qed.

(** ** The vector store's search *)

(** C1: for every store contents, query vector and [k], and so for the
    search the retrieve stage makes, when the order on distances is total
    and transitive the search returns the chunks at positions [idxs] of
    the store, where [idxs] has [k] positions, or all of them when the
    store holds fewer; each returned chunk is no farther from the query
    vector than the ones after it, and of two equally far the one
    inserted first comes first; and each returned chunk ranks, in that
    same order, before every chunk that is not returned. *)
Theorem search_k_nearest (es : list (@Entry Vec)) (qv : Vec) (k : nat) :
  (forall x y, dist_le sv x y = true \/ dist_le sv y x = true) ->
  (forall x y z, dist_le sv x y = true -> dist_le sv y z = true ->
                 dist_le sv x z = true) ->
  exists idxs : list nat,
    Forall2 (fun d i => exists e, es !! i = Some e /\ entry_doc e = d)
            (search sv es qv k) idxs /\
    length (search sv es qv k) = Nat.min k (length es) /\
    (forall a b i j, a < b -> idxs !! a = Some i -> idxs !! b = Some j ->
       precedes sv es qv i j) /\
    (forall i j, i ∈ idxs -> j < length es -> j ∉ idxs -> precedes sv es qv i j).
Proof.
  intros Htot Htrans.
  set (le := closer sv qv).
  assert (Ht : forall x y, le x y = true \/ le y x = true).
  { intros x y. apply Htot. }
  assert (Hr : forall x y z, le x y = true -> le y z = true -> le x z = true).
  { intros x y z. apply Htrans. }
  set (ies := enumerate_from 0 es).
  set (sorted := stable_sort (le_snd le) ies).
  assert (Hsorted : StronglySorted (ranks_before le) sorted).
  { apply stable_sort_sorted; auto. apply enumerate_from_increasing. }
  assert (Hperm : sorted ≡ₚ ies) by apply stable_sort_perm.
  assert (Hin : forall p, p ∈ sorted <-> es !! fst p = Some (snd p)).
  { intros p. rewrite Hperm. unfold ies. rewrite enumerate_from_elem.
    rewrite Nat.sub_0_r. split; [tauto|]. split; [lia|auto]. }
  assert (Hsearch : search sv es qv k = entry_doc <$> (snd <$> take k sorted)).
  { unfold search. fold le. f_equal. rewrite fmap_take. f_equal.
    unfold sorted. rewrite stable_sort_fmap. unfold ies.
    now rewrite enumerate_from_snd. }
  assert (Hrank : forall p q, p ∈ sorted -> q ∈ sorted -> ranks_before le p q ->
                            precedes sv es qv (fst p) (fst q)).
  { intros p q Hp Hq [H1 H2]. exists (snd p), (snd q).
    split; [now apply Hin|]. split; [now apply Hin|]. auto. }
  exists (fst <$> take k sorted).
  split; [|split; [|split]].
  - rewrite Hsearch. rewrite <- list_fmap_compose.
    apply Forall2_fmap, Forall_Forall2_diag, Forall_forall.
    intros p Hp. exists (snd p). split; [|reflexivity].
    apply Hin. apply elem_of_take in Hp as (i & Hi & _).
    eapply list_elem_of_lookup_2; eauto.
  - rewrite Hsearch, !length_fmap, length_take.
    rewrite Hperm. unfold ies.
    rewrite <- (length_fmap snd (enumerate_from 0 es)).
    rewrite enumerate_from_snd. lia.
  - intros a b i j Hab Ha Hb.
    rewrite list_lookup_fmap in Ha, Hb.
    destruct (take k sorted !! a) as [p|] eqn:Ep; [|discriminate].
    destruct (take k sorted !! b) as [q|] eqn:Eq; [|discriminate].
    cbn in Ha, Hb. injection Ha as <-. injection Hb as <-.
    apply lookup_take_Some in Ep as [Ep _]. apply lookup_take_Some in Eq as [Eq _].
    apply Hrank.
    + eapply list_elem_of_lookup_2; eauto.
    + eapply list_elem_of_lookup_2; eauto.
    + eapply StronglySorted_lookup; eauto.
  - intros i j Hi Hj Hnj.
    apply list_elem_of_fmap in Hi as (p & -> & Hp).
    destruct (lookup_lt_is_Some_2 es j Hj) as [e He].
    assert (Hq : (j, e) ∈ sorted) by (apply Hin; exact He).
    rewrite <- (take_drop k sorted) in Hq, Hsorted.
    apply elem_of_app in Hq as [Hq|Hq].
    { exfalso. apply Hnj. apply list_elem_of_fmap. exists (j, e). auto. }
    change j with (fst (j, e)). apply Hrank.
    + apply elem_of_take in Hp as (n & Hn & _).
      eapply list_elem_of_lookup_2; eauto.
    + apply Hin. exact He.
    + eapply StronglySorted_app_1_elem_of; eauto.
Qed.

(** ** The file loader *)

(** C8, as the code has it: the file loader loads exactly the files that
    match the script's pattern [**/*.txt], which are the files whose name
    ends in [.txt], in the directory itself or at any depth below it;
    each becomes one document holding its full text and tagged with its
    path, in the order of the listing, and no other file is loaded. *)
Theorem file_loader_loads_txt_files :
  loads_files_matching sv file_glob /\
  (forall path, glob_match file_glob path = is_txt_file path) /\
  directory_load sv directory_path file_glob
  = map file_document
      (filter (fun f => is_txt_file (fst f) = true)
         (files_below sv directory_path)).
Proof.
  split; [reflexivity|]. split; [apply glob_match_txt|].
  unfold directory_load. f_equal.
  apply list_filter_iff. intros f. now rewrite glob_match_txt.
Qed.

End Properties.

(** * Further properties of the code *)

(** ** Joined text *)

Lemma length_append s t : String.length (s +:+ t) = String.length s + String.length t.
Proof.
  induction s as [|c s IH]; [reflexivity|].
  rewrite append_cons. cbn [String.length]. now rewrite IH.
Qed.

Lemma prefix_append a b : Py.prefix (String.length a) (a +:+ b) = a.
Proof.
  induction a as [|c a IH]; cbn [String.length].
  - destruct b; reflexivity.
  - rewrite append_cons. cbn [Py.prefix]. now rewrite IH.
Qed.

Lemma suffix_append a b : Py.suffix (String.length a) (a +:+ b) = b.
Proof.
  induction a as [|c a IH]; cbn [String.length].
  - destruct b; reflexivity.
  - rewrite append_cons. cbn [Py.suffix]. exact IH.
Qed.

Lemma join_cons2 sep x y l :
  Py.join sep (x :: y :: l) = x +:+ sep +:+ Py.join sep (y :: l).
Proof. reflexivity. Qed.

(** The length of a joined text: the lengths of the items, and one
    separator for each item but the first.  For the context of the prompt:
    the chunks' lengths and two characters for each gap. *)
Theorem join_length sep (items : list string) :
  String.length (Py.join sep items)
  = sum_list (String.length <$> items) + (length items - 1) * String.length sep.
Proof.
  induction items as [|x [|y l] IH].
  - reflexivity.
  - cbn. lia.
  - rewrite join_cons2, !length_append, IH.
    cbn [fmap list_fmap sum_list sum_list_with length]. 
    change (sum_list_with id ?l) with (sum_list l). cbn. lia.
Qed.

(** Each item can be read back from the joined text: it sits, unchanged,
    at its offset, which is the lengths of the items before it and one
    separator for each of them. *)
Theorem join_item_read_back sep (items : list string) i x :
  items !! i = Some x ->
  Py.slice (join_offset sep items i) (String.length x) (Py.join sep items) = x.
Proof.
  revert i. induction items as [|y rest IH]; intros i Hi; [discriminate|].
  destruct i as [|i].
  - cbn in Hi. injection Hi as ->.
    change (join_offset sep (x :: rest) 0) with 0.
    unfold Py.slice. cbn [Py.suffix].
    destruct rest as [|z r].
    + cbn [Py.join]. apply prefix_all. lia.
    + rewrite join_cons2. apply prefix_append.
  - cbn in Hi. destruct rest as [|z r]; [discriminate|].
    specialize (IH i Hi). unfold Py.slice in *. unfold join_offset in *.
    rewrite join_cons2.
    cbn [take fmap list_fmap sum_list sum_list_with].
    change (sum_list_with id ?l) with (sum_list l).
    replace (id (String.length y) + sum_list (String.length <$> take i (z :: r))
             + S i * String.length sep)
      with (String.length (y +:+ sep)
            + (sum_list (String.length <$> take i (z :: r)) + i * String.length sep))
      by (rewrite length_append; unfold id; cbn; lia).
    rewrite <- suffix_suffix. rewrite append_assoc. rewrite suffix_append.
    exact IH.
Qed.

(** ** The stages and the script, beyond the specification *)

Section Further.

Context {Vec Dist Msg : Type}.
Variable sv : @Services Vec Dist Msg.

Abbreviation W2 := (@World Vec Msg).



(** The retrieve stage reads nothing of the state but the question, and
    nothing of the world but the store: on two states with the same entry
    under ["question"], in two worlds with the same store, it gives the
    same result; and it leaves the store as it was. *)
Theorem retrieve_reads_question_and_store (st1 st2 : State) (w1 w2 : W2) :
  st1 !! "question" = st2 !! "question" ->
  store w1 = store w2 ->
  result_of (retrieve sv st1 w1) = result_of (retrieve sv st2 w2) /\
  store (world_of (retrieve sv st1 w1)) = store w1.
Proof.
  intros Hq Hs. unfold retrieve, bind, getitem. rewrite <- Hq.
  destruct (st1 !! "question") as [[q|docs]|]; cbn; auto.
  now rewrite Hs.
Qed.

(** The generate stage reads nothing of the state but the question and
    the context, and nothing of the world: on two states that agree on
    those two keys it gives the same result in any two worlds; and it
    leaves the store as it was. *)
Theorem generate_reads_question_and_context (st1 st2 : State) (w1 w2 : W2) :
  st1 !! "question" = st2 !! "question" ->
  st1 !! "context" = st2 !! "context" ->
  result_of (generate sv st1 w1) = result_of (generate sv st2 w2) /\
  store (world_of (generate sv st1 w1)) = store w1.
Proof.
  intros Hq Hc. unfold generate, bind, getitem. rewrite <- Hq, <- Hc.
  destruct (st1 !! "context") as [[s|docs]|]; cbn; auto.
  destruct (st1 !! "question") as [[q|d']|]; cbn; auto.
Qed.

(** The three keys of the state an invocation ends in. *)
Lemma invoke_final_state (input : State) q (w : W2) :
  input !! "question" = Some (VStr q) ->
  exists st w',
    invoke (graph sv) input w = Returned st w' /\
    st !! "question" = Some (VStr q) /\
    st !! "context" = Some (VDocs (pipeline_context sv (store w) q)) /\
    st !! "answer" = Some (VStr (pipeline_answer sv (store w) q)).
Proof.
  intros Hq. eexists _, _. split; [apply (invoke_returns _ _ _ _ Hq)|].
  unfold apply_update. split; [|split].
  - rewrite lookup_union_r by done. rewrite lookup_union_r by done. exact Hq.
  - rewrite lookup_union_r by done. apply lookup_union_Some_l, lookup_singleton_eq.
  - apply lookup_union_Some_l, lookup_singleton_eq.
Qed.

(** A context or an answer that the input state already holds never
    reaches the result: an invocation on a state with the question [q]
    ends in a state whose question is [q], whose context is what the
    search gives for [q] and whose answer is the model's answer to the
    prompt rendered from them; two invocations with the same question over
    the same store agree on all three keys. *)
Theorem invoke_overwrites_context_and_answer (input1 input2 : State) q (w1 w2 : W2) :
  input1 !! "question" = Some (VStr q) ->
  input2 !! "question" = Some (VStr q) ->
  store w1 = store w2 ->
  exists st1 w1' st2 w2',
    invoke (graph sv) input1 w1 = Returned st1 w1' /\
    invoke (graph sv) input2 w2 = Returned st2 w2' /\
    st1 !! "question" = Some (VStr q) /\
    st1 !! "context" = Some (VDocs (pipeline_context sv (store w1) q)) /\
    st1 !! "answer" = Some (VStr (pipeline_answer sv (store w1) q)) /\
    st2 !! "question" = st1 !! "question" /\
    st2 !! "context" = st1 !! "context" /\
    st2 !! "answer" = st1 !! "answer".
Proof.
  intros H1 H2 Hs.
  destruct (invoke_final_state input1 q w1 H1) as (st1 & w1' & Hi1 & Hq1 & Hc1 & Ha1).
  destruct (invoke_final_state input2 q w2 H2) as (st2 & w2' & Hi2 & Hq2 & Hc2 & Ha2).
  exists st1, w1', st2, w2'. rewrite Hq1, Hc1, Ha1, Hq2, Hc2, Ha2, Hs. auto 10.
Qed.



(** The search returns documents of the store only. *)
Lemma search_from_store (es : list (@Entry Vec)) qv k c :
  c ∈ search sv es qv k -> exists e, e ∈ es /\ entry_doc e = c.
Proof.
  unfold search. intros H. apply list_elem_of_fmap in H as (e & -> & He).
  exists e. split; [|reflexivity].
  apply elem_of_take in He as (i & Hi & _).
  rewrite <- (stable_sort_perm (closer sv qv) es).
  eapply list_elem_of_lookup_2; eauto.
Qed.

(** Each chunk of a document is a window of its content. *)
Lemma split_document_slices L O b (d c : Document) :
  O < L ->
  c ∈ split_document sv L O b d ->
  exists off,
    page_content c = Py.slice off (String.length (page_content c)) (page_content d) /\
    0 < String.length (page_content c) <= L.
Proof.
  intros HOL Hc. unfold split_document in Hc.
  apply list_elem_of_fmap in Hc as (oc & -> & Hoc).
  destruct (split_from_spec sv L O (page_content d) HOL
              (String.length (page_content d)) 0 (page_content d)
              eq_refl ltac:(lia)) as (H1 & _ & _).
  rewrite Forall_forall in H1. destruct (H1 oc Hoc) as (_ & Hs & Hl & _).
  exists (fst oc). cbn [page_content]. auto.
Qed.

(** In a complete run, every chunk retrieved for the question, and so
    every chunk whose content goes into the prompt, is a piece of one of
    the loaded documents: its content is a non-empty window of at most
    1000 characters of the content of a document of the combined corpus. *)
Theorem retrieved_chunks_come_from_corpus (w : W2) :
  main sv world0 = Returned tt w ->
  forall c, c ∈ pipeline_context sv (store w) the_question ->
    exists parent off,
      parent ∈ all_docs (web_fetch sv web_paths)
                 (directory_load sv directory_path file_glob) /\
      page_content c
      = Py.slice off (String.length (page_content c)) (page_content parent) /\
      0 < String.length (page_content c) <= 1000.
Proof.
  intros Hrun c Hc. rewrite main_runs in Hrun. cbv zeta in Hrun.
  destruct (Py.first _) as [e|d0]; [discriminate|].
  inversion Hrun; subst w; clear Hrun. cbn [store] in Hc.
  apply search_from_store in Hc as (e & He & <-).
  apply list_elem_of_fmap in He as (c & -> & Hc). cbn [entry_doc].
  rewrite split_documents_concat in Hc.
  apply list_elem_of_In, in_concat in Hc as (chunks & Hchunks & Hc).
  apply list_elem_of_In in Hc.
  apply list_elem_of_In, list_elem_of_fmap in Hchunks as (parent & -> & Hparent).
  destruct (split_document_slices chunk_size chunk_overlap add_start_index
              parent c) as (off & Hs & Hl); [unfold chunk_overlap, chunk_size; lia|exact Hc|].
  exists parent, off. unfold chunk_size in Hl. auto.
Qed.

(** An invocation on a state without a question fails in the retrieve
    stage, with [KeyError] for ["question"], before any search, prompt or
    model call: the world is as it was. *)
Theorem invoke_fails_without_question (input : State) (w : W2) :
  input !! "question" = None ->
  invoke (graph sv) input w = Raised (Py.KeyError "question") w.
Proof.
  intros H. rewrite invoke_graph. unfold bind at 1.
  unfold retrieve, bind, getitem. rewrite H. reflexivity.
Qed.

(** The generate stage uses the chunks' contents and nothing else of
    them: two contexts whose chunks have the same contents, whatever their
    metadata (source, start offset), give the same prompt, the same model
    call and the same answer. *)
Theorem generate_ignores_metadata (st1 st2 : State) q docs1 docs2 (w : W2) :
  st1 !! "question" = Some (VStr q) ->
  st2 !! "question" = Some (VStr q) ->
  st1 !! "context" = Some (VDocs docs1) ->
  st2 !! "context" = Some (VDocs docs2) ->
  map page_content docs1 = map page_content docs2 ->
  generate sv st1 w = generate sv st2 w.
Proof.
  intros Hq1 Hq2 Hc1 Hc2 Hsame.
  rewrite (generate_returns sv st1 q docs1 w Hq1 Hc1).
  rewrite (generate_returns sv st2 q docs2 w Hq2 Hc2).
  cbv zeta. now rewrite Hsame.
Qed.


End Further.

(** * Instances on the small environment *)

(** The generate stage on a state that holds two chunks. *)
Lemma generate_context_text_witness :
  exists u,
    generate demo_services demo_state world0 =
      Returned u
        (mkWorld []
           ([] ++
            [PromptInvoke "which?" (context_text [demo_chunk_a; demo_chunk_b]);
             LlmInvoke generativeModelName
               (render demo_services prompt_name "which?"
                  (context_text [demo_chunk_a; demo_chunk_b]))])).
Proof.
  apply (generate_context_text demo_services demo_state "which?"
           [demo_chunk_a; demo_chunk_b] world0); reflexivity.
Defined.

(** One invocation over a store of two chunks. *)
Lemma pipeline_two_stages_witness :
  exists st w',
    invoke (graph demo_services) demo_input demo_world = Returned st w' /\
    st !! "question" = Some (VStr "which?") /\
    st !! "context" = Some (VDocs [demo_chunk_a; demo_chunk_b]) /\
    store w' = store demo_world.
Proof.
  destruct (pipeline_two_stages demo_services demo_input "which?" demo_world
              eq_refl)
    as (u1 & w1 & u2 & w2 & _ & Hc & Hf1 & _ & _ & Hf2 & _ & _ & _ & Hi & Hs & _).
  exists (apply_update (apply_update demo_input u1) u2), w2.
  split; [exact Hi|]. split.
  - rewrite Hf2 by discriminate. rewrite Hf1 by discriminate. reflexivity.
  - split; [|exact Hs]. rewrite Hf2 by discriminate. exact Hc.
Defined.

(** One invocation over the empty store. *)
Lemma empty_store_still_generates_witness :
  exists st w',
    invoke (graph demo_services) demo_input world0 = Returned st w' /\
    st !! "context" = Some (VDocs []) /\
    trace w' =
      [SimilaritySearch "which?";
       PromptInvoke "which?" "";
       LlmInvoke generativeModelName "Q: which? C: "].
Proof.
  destruct (empty_store_still_generates demo_services demo_input "which?" world0
              eq_refl eq_refl)
    as (st & w' & _ & Hi & Hc & _ & Ht).
  exists st, w'. split; [exact Hi|]. split; [exact Hc|exact Ht].
Defined.

(** The whole script on the small environment. *)
Lemma complete_run_stdout_witness :
  main demo_services world0
    = Returned tt (world_of (main demo_services world0)) /\
  stdout (trace (world_of (main demo_services world0))) =
    ["Loaded 1 web documents.";
     "Total characters: 9";
     "answer to Q: What are some username passwords? C: alpha beta"
       +:+ Py.blank_line +:+ "hello web"].
Proof.
  assert (H : main demo_services world0
              = Returned tt (world_of (main demo_services world0))).
  { vm_compute. reflexivity. }
  split; [exact H|].
  destruct (complete_run_stdout demo_services _ H) as (d & rest & Hd & Hout).
  rewrite Hout.
  vm_compute in Hd. injection Hd as <- <-.
  vm_compute. reflexivity.
Defined.

(** The whole script when nothing is loaded. *)
Lemma empty_corpus_index_error_witness :
  main empty_services world0 =
    Raised Py.IndexError
      (mkWorld []
         [WebLoad web_paths;
          Print "Loaded 0 web documents.";
          DirectoryLoad directory_path file_glob]).
Proof.
  apply (proj2 (proj2 (empty_corpus_index_error empty_services))); reflexivity.
Defined.

(** The two nearest of four chunks, three of them equally far. *)
Lemma search_k_nearest_witness :
  exists idxs : list nat,
    Forall2 (fun d i => exists e, demo_store !! i = Some e /\ entry_doc e = d)
            (search demo_services demo_store 4 2) idxs /\
    length (search demo_services demo_store 4 2) = Nat.min 2 (length demo_store) /\
    (forall a b i j, a < b -> idxs !! a = Some i -> idxs !! b = Some j ->
       precedes demo_services demo_store 4 i j) /\
    (forall i j, i ∈ idxs -> j < length demo_store -> j ∉ idxs ->
       precedes demo_services demo_store 4 i j).
Proof.
  apply (search_k_nearest demo_services demo_store 4 2).
  - intros x y. cbn. rewrite !Nat.leb_le. lia.
  - intros x y z. cbn. rewrite !Nat.leb_le. lia.
Defined.

(** The claim with the specification's pattern [*.txt] fails where a file
    sits in a subdirectory: [notes/b.txt] is loaded, and does not match. *)
Lemma file_loader_not_spec_glob :
  ~ loads_files_matching demo_services spec_glob.
Proof.
  unfold loads_files_matching. intros H.
  apply (f_equal length) in H. vm_compute in H. discriminate.
Qed.

(** The stale state and the fresh one, over the same store. *)
Lemma retrieve_reads_question_and_store_witness :
  result_of (retrieve demo_services demo_stale_state demo_world)
  = result_of (retrieve demo_services demo_input demo_world) /\
  store (world_of (retrieve demo_services demo_stale_state demo_world))
  = store demo_world.
Proof.
  apply (retrieve_reads_question_and_store demo_services
           demo_stale_state demo_input demo_world demo_world);
    vm_compute; reflexivity.
Defined.

(** A state with and without an old answer, in two different worlds. *)
Lemma generate_reads_question_and_context_witness :
  result_of (generate demo_services demo_answered_state world0)
  = result_of (generate demo_services demo_state demo_world) /\
  store (world_of (generate demo_services demo_answered_state world0))
  = @store nat string world0.
Proof.
  apply (generate_reads_question_and_context demo_services
           demo_answered_state demo_state world0 demo_world);
    vm_compute; reflexivity.
Defined.

(** The stale context and answer are replaced. *)
Lemma invoke_overwrites_context_and_answer_witness :
  exists st1 w1' st2 w2',
    invoke (graph demo_services) demo_stale_state demo_world = Returned st1 w1' /\
    invoke (graph demo_services) demo_input demo_world = Returned st2 w2' /\
    st1 !! "context" = Some (VDocs [demo_chunk_a; demo_chunk_b]) /\
    st2 !! "context" = st1 !! "context" /\
    st2 !! "answer" = st1 !! "answer".
Proof.
  assert (H1 : demo_stale_state !! "question" = Some (VStr "which?"))
    by (vm_compute; reflexivity).
  assert (H2 : demo_input !! "question" = Some (VStr "which?"))
    by (vm_compute; reflexivity).
  destruct (invoke_overwrites_context_and_answer demo_services
              demo_stale_state demo_input "which?" demo_world demo_world
              H1 H2 eq_refl)
    as (st1 & w1' & st2 & w2' & Hi1 & Hi2 & _ & Hc & _ & _ & Hc2 & Ha2).
  exists st1, w1', st2, w2'. repeat split; assumption.
Defined.

(** The second of three items. *)
Lemma join_item_read_back_witness :
  Py.slice (join_offset ", " ["alpha"; "beta"; "gamma"] 1) (String.length "beta")
    (Py.join ", " ["alpha"; "beta"; "gamma"]) = "beta".
Proof.
  apply (join_item_read_back ", " ["alpha"; "beta"; "gamma"] 1 "beta").
  reflexivity.
Defined.

(** A chunk retrieved in the run on the small environment. *)
Lemma retrieved_chunks_come_from_corpus_witness :
  exists parent off,
    parent ∈ all_docs (web_fetch demo_services web_paths)
               (directory_load demo_services directory_path file_glob) /\
    page_content demo_retrieved
    = Py.slice off (String.length (page_content demo_retrieved))
        (page_content parent) /\
    0 < String.length (page_content demo_retrieved) <= 1000.
Proof.
  assert (H : main demo_services world0
              = Returned tt (world_of (main demo_services world0)))
    by (vm_compute; reflexivity).
  apply (retrieved_chunks_come_from_corpus demo_services _ H demo_retrieved).
  vm_compute. apply list_elem_of_here.
Defined.

(** An invocation on a state that holds a context and no question. *)
Lemma invoke_fails_without_question_witness :
  invoke (graph demo_services) demo_no_question demo_world
  = Raised (Py.KeyError "question") demo_world.
Proof.
  apply (invoke_fails_without_question demo_services demo_no_question demo_world).
  vm_compute. reflexivity.
Defined.

(** Chunks with and without metadata, same contents. *)
Lemma generate_ignores_metadata_witness :
  generate demo_services demo_state world0
  = generate demo_services demo_bare_state world0.
Proof.
  apply (generate_ignores_metadata demo_services demo_state demo_bare_state
           "which?" [demo_chunk_a; demo_chunk_b]
           [mkDocument "alpha" ∅; mkDocument "beta" ∅] world0);
    vm_compute; reflexivity.
Defined.

